(** * Firehose destination configuration surface ([lib/common.ts])

    The module declares one enum-like class ([Compression]), one numeric
    enum ([BackupMode]) and four property interfaces.  The interfaces are
    modelled as the member tables they declare, with [extends] resolved by
    [members].  The class is modelled at run time: instances live in an
    object store, [new Compression(tag)] allocates there, and the five
    static members are the references the class initialiser obtains.  The
    enum is modelled by TypeScript's numbering rule applied to its member
    list. *)

From Stdlib Require Import Ascii.
From stdpp Require Import gmap strings list fin_maps.

Open Scope Z_scope.
Open Scope string_scope.
Open Scope list_scope.

(** ** Run-time values and the object store *)

Module JS.

Inductive Val :=
| VUndefined
| VBool (b : bool)
| VNum (n : Z)
| VStr (s : string)
| VRef (r : nat).

(** An object: the class that built it ([None] for an object literal) and
    its own properties.  A reference is the position of the object in the
    store. *)
Record Obj := MkObj {
  class_of : option string;
  props : gmap string Val
}.

(** A computation that threads the store. *)
Definition M (A : Type) : Type := list Obj -> A * list Obj.

Definition ret {A} (a : A) : M A := fun h => (a, h).

Definition bind {A B} (m : M A) (k : A -> M B) : M B :=
  fun h => let '(a, h') := m h in k a h'.

(** [new]: the object is appended to the store and its position returned. *)
Definition alloc (o : Obj) : M nat :=
  fun h => (length h, h ++ [o]).

(** Property read [r.p]. *)
Definition get (h : list Obj) (r : nat) (p : string) : option Val :=
  o ← h !! r; props o !! p.

(** Property write [r.p = v]; the value of the expression is [v]. *)
Definition set_prop (p : string) (v : Val) (o : Obj) : Obj :=
  MkObj (class_of o) (<[p := v]> (props o)).

Definition assign (r : nat) (p : string) (v : Val) : M Val :=
  fun h => (v, alter (set_prop p v) r h).

Definition instance_of (h : list Obj) (r : nat) (c : string) : bool :=
  match h !! r with
  | Some o => bool_decide (class_of o = Some c)
  | None => false
  end.

End JS.

Import JS.

#[global] Instance M_ret : MRet M := @ret.
#[global] Instance M_bind : MBind M := fun A B k m => bind m k.

(** ** Declarations *)

(** [import * as ns from 'package'] *)
Definition namespace_imports : list (string * string) :=
  [ ("iam", "@aws-cdk/aws-iam");
    ("kms", "@aws-cdk/aws-kms");
    ("logs", "@aws-cdk/aws-logs");
    ("s3", "@aws-cdk/aws-s3");
    ("cdk", "@aws-cdk/core") ].

(** [import { name } from 'module'] *)
Definition named_imports : list (string * string) :=
  [ ("IDataProcessor", "./processor") ].

Inductive TsType :=
| TBoolean
| TString
| TQualified (ns name : string)   (* [ns.name] *)
| TName (name : string)
| TArray (elem : TsType).         (* [elem[]] *)

#[global] Instance TsType_eq_dec : EqDecision TsType.
Proof. solve_decision. Defined.

(** Where a named type comes from: the package or module of the import that
    binds its qualifier or its name; [None] when no import does, as for the
    types this file declares. *)
Definition origin (t : TsType) : option string :=
  match t with
  | TQualified ns _ =>
      snd <$> find (fun e => bool_decide (e.1 = ns)) namespace_imports
  | TName n => snd <$> find (fun e => bool_decide (e.1 = n)) named_imports
  | _ => None
  end.

Record Member := MkMember {
  m_name : string;
  m_readonly : bool;
  m_optional : bool;
  m_type : TsType
}.

#[global] Instance Member_eq_dec : EqDecision Member.
Proof. solve_decision. Defined.

(** [readonly name?: type] *)
Definition ro_opt (name : string) (t : TsType) : Member :=
  MkMember name true true t.

#[warnings="-register-all"]
Inductive Interface :=
| MkInterface (name : string) (exported : bool)
              (extends : list Interface) (own : list Member).

Definition i_name (i : Interface) : string :=
  match i with MkInterface n _ _ _ => n end.
Definition i_extends (i : Interface) : list Interface :=
  match i with MkInterface _ _ ps _ => ps end.
Definition i_own (i : Interface) : list Member :=
  match i with MkInterface _ _ _ own => own end.

(** All members of an interface: those of the interfaces it extends, in
    the order of the [extends] clause, then its own. *)
Fixpoint members (i : Interface) : list Member :=
  match i with
  | MkInterface _ _ ps own =>
      (fix inherited (ps : list Interface) : list Member :=
         match ps with
         | [] => []
         | p :: ps' => members p ++ inherited ps'
         end) ps ++ own
  end.

Definition member_names (i : Interface) : list string := m_name <$> members i.

(** Members an object must have to be of the interface's type. *)
Definition required (i : Interface) : list Member :=
  filter (fun m => m_optional m = false) (members i).

Definition DestinationLoggingProps : Interface :=
  MkInterface "DestinationLoggingProps" false []
    [ ro_opt "logging" TBoolean;
      ro_opt "logGroup" (TQualified "logs" "ILogGroup") ].

Definition CommonS3Props : Interface :=
  MkInterface "CommonS3Props" true []
    [ ro_opt "bufferingInterval" (TQualified "cdk" "Duration");
      ro_opt "bufferingSize" (TQualified "cdk" "Size");
      ro_opt "compression" (TName "Compression");
      ro_opt "encryptionKey" (TQualified "kms" "IKey");
      ro_opt "errorOutputPrefix" TString;
      ro_opt "prefix" TString ].

Definition S3BackupDestinationProps : Interface :=
  MkInterface "S3BackupDestinationProps" true
    [ DestinationLoggingProps; CommonS3Props ]
    [ ro_opt "backupBucket" (TQualified "s3" "IBucket");
      ro_opt "backupMode" (TName "BackupMode") ].

Definition CommonDestinationProps : Interface :=
  MkInterface "CommonDestinationProps" true
    [ DestinationLoggingProps ]
    [ ro_opt "role" (TQualified "iam" "IRole");
      ro_opt "processors" (TArray (TName "IDataProcessor"));
      ro_opt "backupConfiguration" (TName "S3BackupDestinationProps") ].

(** The instance fields of [Compression]: the constructor's parameter
    property [public readonly value: string]. *)
Definition Compression_fields : list Member :=
  [ MkMember "value" true false TString ].

(** The object types of the module, each with the fields it gives its
    values. *)
Definition module_types : list (string * list Member) :=
  [ ("Compression", Compression_fields);
    (i_name DestinationLoggingProps, members DestinationLoggingProps);
    (i_name CommonS3Props, members CommonS3Props);
    (i_name S3BackupDestinationProps, members S3BackupDestinationProps);
    (i_name CommonDestinationProps, members CommonDestinationProps) ].

(** ** [class Compression] *)

(** The constructor's body is empty: the new object gets the parameter
    property and nothing else. *)
Definition Compression_instance (value : string) : Obj :=
  MkObj (Some "Compression") {[ "value" := VStr value ]}.

Definition Compression_new (value : string) : M nat :=
  alloc (Compression_instance value).

(** The static members, as references. *)
Record CompressionStatics := MkStatics {
  GZIP : nat;
  HADOOP_SNAPPY : nat;
  SNAPPY : nat;
  UNCOMPRESSED : nat;
  ZIP : nat
}.

(** Class initialisation: the static initialisers run in source order. *)
Definition Compression_static_init : M CompressionStatics :=
  gzip ← Compression_new "GZIP";
  hadoop_snappy ← Compression_new "HADOOP_SNAPPY";
  snappy ← Compression_new "Snappy";
  uncompressed ← Compression_new "UNCOMPRESSED";
  zip ← Compression_new "ZIP";
  mret (MkStatics gzip hadoop_snappy snappy uncompressed zip).

(** The static members, and the store, once the class is initialised in
    store [h]. *)
Definition statics (h : list Obj) : CompressionStatics :=
  (Compression_static_init h).1.
Definition loaded (h : list Obj) : list Obj :=
  (Compression_static_init h).2.

Definition predefined (st : CompressionStatics) : list nat :=
  [GZIP st; HADOOP_SNAPPY st; SNAPPY st; UNCOMPRESSED st; ZIP st].

(** The read [c.value]. *)
Definition value (h : list Obj) (c : nat) : option string :=
  match get h c "value" with
  | Some (VStr s) => Some s
  | _ => None
  end.

Definition is_Compression (h : list Obj) (r : nat) : bool :=
  instance_of h r "Compression".

(** [String.prototype.toUpperCase] on ASCII text, to tell an upper-case tag
    from a mixed-case one. *)
Definition upper_ascii (a : ascii) : ascii :=
  let n := nat_of_ascii a in
  if bool_decide (97 ≤ n ≤ 122)%nat then ascii_of_nat (n - 32) else a.

Fixpoint toUpperCase (s : string) : string :=
  match s with
  | EmptyString => EmptyString
  | String a s' => String (upper_ascii a) (toUpperCase s')
  end.

(** ** Typed use of the module

    What code that type-checks against the module can do to the store
    through the module's types: construct a [Compression], read the [value]
    of one, or assign to a field of a value of one of the module's object
    types.  The checker admits such an assignment only to a field that the
    type declares without [readonly]; the operation carries that
    evidence. *)
Inductive Op :=
| OpNew (tag : string)
| OpValue (c : nat)
| OpAssign (T : string * list Member) (r : nat) (m : Member) (v : Val)
           (declared : T ∈ module_types) (field : m ∈ T.2)
           (writable : m_readonly m = false).

Definition exec (op : Op) : M Val :=
  match op with
  | OpNew tag => c ← Compression_new tag; mret (VRef c)
  | OpValue c => fun h => (default VUndefined (get h c "value"), h)
  | OpAssign _ r m v _ _ _ => assign r (m_name m) v
  end.

Fixpoint run (ops : list Op) : M (list Val) :=
  match ops with
  | [] => mret []
  | op :: ops' => v ← exec op; vs ← run ops'; mret (v :: vs)
  end.

(** Closedness of the class: whatever is done with it once it is
    initialised, every [Compression] instance in the store is one of the
    five static members. *)
Definition Compression_closed : Prop :=
  ∀ (ops : list Op) (c : nat),
    is_Compression (run ops (loaded [])).2 c = true →
    c ∈ predefined (statics []).

(** ** [enum BackupMode] *)

Inductive BackupMode := ALL | FAILED | DISABLED.

#[global] Instance BackupMode_eq_dec : EqDecision BackupMode.
Proof. solve_decision. Defined.

(** An enum declaration lists its members in order, each with an optional
    numeric initialiser.  A member without one gets the value after the
    preceding member's, and the first gets 0. *)
Fixpoint enum_number {A} (next : Z) (decl : list (A * option Z)) : list (A * Z) :=
  match decl with
  | [] => []
  | (m, init) :: decl' =>
      let v := default next init in (m, v) :: enum_number (v + 1) decl'
  end.

Definition BackupMode_decl : list (BackupMode * option Z) :=
  [(ALL, None); (FAILED, None); (DISABLED, None)].

Definition BackupMode_members : list (BackupMode * Z) :=
  enum_number 0 BackupMode_decl.

(** The number a member evaluates to at run time. *)
Definition BackupMode_value (m : BackupMode) : option Z :=
  snd <$> find (fun e => bool_decide (e.1 = m)) BackupMode_members.

(** The reverse mapping [BackupMode[n]]. *)
Definition BackupMode_of_value (n : Z) : option BackupMode :=
  fst <$> find (fun e => bool_decide (e.2 = n)) BackupMode_members.

(** ** Auxiliary notions for the properties below *)

(** The tags of the constructions among [ops], in order. *)
Definition new_tags (ops : list Op) : list string :=
  omap (fun op => match op with OpNew tag => Some tag | _ => None end) ops.


(** The type names the file itself declares. *)
Definition declared_types : list string :=
  [ "Compression"; "BackupMode";
    i_name DestinationLoggingProps; i_name CommonS3Props;
    i_name S3BackupDestinationProps; i_name CommonDestinationProps ].

(** A type reference resolves when its qualifier is a namespace import, or
    its name is declared in the file or bound by a named import. *)
Fixpoint resolved (t : TsType) : bool :=
  match t with
  | TBoolean | TString => true
  | TQualified ns _ => bool_decide (ns ∈ namespace_imports.*1)
  | TName n => bool_decide (n ∈ declared_types ∨ n ∈ named_imports.*1)
  | TArray e => resolved e
  end.

(** The import binding a type reference goes through, if any. *)
Fixpoint import_of (t : TsType) : option string :=
  match t with
  | TQualified ns _ => Some ns
  | TName n => if bool_decide (n ∈ named_imports.*1) then Some n else None
  | TArray e => import_of e
  | _ => None
  end.

(** The interface of this file that a type reference names, if any. *)
Fixpoint interface_of (t : TsType) : option string :=
  match t with
  | TName n =>
      if bool_decide (n ∈ i_name <$>
           [ DestinationLoggingProps; CommonS3Props;
             S3BackupDestinationProps; CommonDestinationProps ])
      then Some n else None
  | TArray e => interface_of e
  | _ => None
  end.

(** * Properties *)

(** ** The definitions at work *)

Example static_init_empty :
  statics [] = MkStatics 0 1 2 3 4 ∧ length (loaded []) = 5%nat.
Proof. by split. Qed.

Example run_new_then_read :
  run [OpNew "LZ4"; OpValue 5; OpValue 2] (loaded [])
  = ([VRef 5; VStr "LZ4"; VStr "Snappy"],
     loaded [] ++ [Compression_instance "LZ4"]).
Proof. reflexivity. Qed.

Example read_missing : (exec (OpValue 7) (loaded [])).1 = VUndefined.
Proof. reflexivity. Qed.

Example enum_number_initialisers :
  enum_number 0 [("A", None); ("B", Some 5); ("C", None)]
  = [("A", 0); ("B", 5); ("C", 6)].
Proof. reflexivity. Qed.

Example S3BackupDestinationProps_names :
  member_names S3BackupDestinationProps =
    [ "logging"; "logGroup"; "bufferingInterval"; "bufferingSize";
      "compression"; "encryptionKey"; "errorOutputPrefix"; "prefix";
      "backupBucket"; "backupMode" ].
Proof. reflexivity. Qed.

(** ** The object store *)

Section Store.

Implicit Types (h : list Obj) (c : nat) (tag : string).

Lemma module_fields_readonly :
  Forall (fun T => Forall (fun m => m_readonly m = true) T.2) module_types.
Proof. by repeat constructor. Qed.

(** No field of the module's types admits an assignment. *)
Lemma no_writable_field (T : string * list Member) (m : Member) :
  T ∈ module_types → m ∈ T.2 → m_readonly m = true.
Proof.
  intros HT Hm. pose proof module_fields_readonly as H.
  rewrite Forall_forall in H. specialize (H T HT).
  rewrite Forall_forall in H. by apply H.
Qed.

Lemma Op_cases (op : Op) : (∃ tag, op = OpNew tag) ∨ (∃ c, op = OpValue c).
Proof.
  destruct op as [tag|c|T r m v HT Hm Hw]; [by eauto | by eauto |].
  exfalso. pose proof (no_writable_field T m HT Hm) as Hr. congruence.
Qed.

Lemma Compression_new_eq tag h :
  Compression_new tag h = (length h, h ++ [Compression_instance tag]).
Proof. reflexivity. Qed.

Lemma value_instance h tag k :
  value (h ++ Compression_instance tag :: k) (length h) = Some tag.
Proof.
  unfold value, get. rewrite list_lookup_middle by done. cbn.
  by rewrite lookup_singleton_eq.
Qed.

Lemma is_Compression_instance h tag k :
  is_Compression (h ++ Compression_instance tag :: k) (length h) = true.
Proof.
  unfold is_Compression, instance_of. by rewrite list_lookup_middle.
Qed.

(** Reads are stable when the store only grows. *)
Lemma get_extend h k c p v : get h c p = Some v → get (h ++ k) c p = Some v.
Proof.
  unfold get. destruct (h !! c) as [o|] eqn:E; [|done].
  by rewrite (lookup_app_l_Some _ _ _ _ E).
Qed.

Lemma value_extend h k c tag : value h c = Some tag → value (h ++ k) c = Some tag.
Proof.
  unfold value. destruct (get h c "value") as [v|] eqn:E; [|done].
  by rewrite (get_extend _ k _ _ _ E).
Qed.

Lemma is_Compression_extend h k c :
  is_Compression h c = true → is_Compression (h ++ k) c = true.
Proof.
  unfold is_Compression, instance_of.
  destruct (h !! c) as [o|] eqn:E; [|done].
  by rewrite (lookup_app_l_Some _ _ _ _ E).
Qed.

(** Every operation leaves the store it found as a prefix of the store it
    returns. *)
Lemma exec_extends op h : ∃ k, (exec op h).2 = h ++ k.
Proof.
  destruct (Op_cases op) as [[tag ->]|[c ->]]; cbn.
  - by exists [Compression_instance tag].
  - exists []. by rewrite app_nil_r.
Qed.

Lemma run_extends ops : ∀ h, ∃ k, (run ops h).2 = h ++ k.
Proof.
  induction ops as [|op ops IH]; intros h.
  - exists []. cbn. by rewrite app_nil_r.
  - destruct (exec_extends op h) as [k1 E1].
    destruct (IH (exec op h).2) as [k2 E2].
    exists (k1 ++ k2). rewrite app_assoc, <- E1, <- E2.
    cbn. unfold mbind, M_bind, bind.
    destruct (exec op h) as [v h1]. cbn.
    destruct (run ops h1) as [vs h2]. done.
Qed.

Lemma run_frame ops h : take (length h) (run ops h).2 = h.
Proof.
  destruct (run_extends ops h) as [k ->]. by rewrite take_app_length.
Qed.

Lemma static_init_eq h :
  let n := length h in
  Compression_static_init h =
    (MkStatics n (n + 1) (n + 2) (n + 3) (n + 4),
     h ++ [ Compression_instance "GZIP";
            Compression_instance "HADOOP_SNAPPY";
            Compression_instance "Snappy";
            Compression_instance "UNCOMPRESSED";
            Compression_instance "ZIP" ]).
Proof.
  cbn. unfold Compression_static_init, mbind, M_bind, bind, mret, M_ret, ret.
  rewrite !Compression_new_eq, !length_app. cbn [length].
  rewrite <- !app_assoc. cbn [app].
  do 2 f_equal; lia.
Qed.

Lemma value_at h pre tag k :
  value (h ++ pre ++ Compression_instance tag :: k) (length h + length pre)
  = Some tag.
Proof. rewrite app_assoc, <- length_app. apply value_instance. Qed.

Lemma is_Compression_at h pre tag k :
  is_Compression (h ++ pre ++ Compression_instance tag :: k)
                 (length h + length pre) = true.
Proof. rewrite app_assoc, <- length_app. apply is_Compression_instance. Qed.

Lemma statics_eq h :
  let n := length h in
  statics h = MkStatics n (n + 1) (n + 2) (n + 3) (n + 4).
Proof. unfold statics. by rewrite static_init_eq. Qed.

Lemma loaded_eq h :
  loaded h = h ++ (Compression_instance <$>
                    ["GZIP"; "HADOOP_SNAPPY"; "Snappy"; "UNCOMPRESSED"; "ZIP"]).
Proof. unfold loaded. by rewrite static_init_eq. Qed.

Lemma loaded_length h : length (loaded h) = (length h + 5)%nat.
Proof. rewrite loaded_eq, length_app. done. Qed.

Lemma predefined_eq h :
  predefined (statics h) = (fun i => length h + i)%nat <$> seq 0 5.
Proof. rewrite statics_eq. cbn. by rewrite Nat.add_0_r. Qed.

(** Reading the [i]-th object that the initialiser created, in any store
    that extends the initialised one. *)
Lemma value_loaded h k i tag :
  ["GZIP"; "HADOOP_SNAPPY"; "Snappy"; "UNCOMPRESSED"; "ZIP"] !! i = Some tag →
  value (loaded h ++ k) (length h + i) = Some tag.
Proof.
  intros E. rewrite loaded_eq. apply value_extend.
  pose proof (lookup_lt_Some _ _ _ E) as Hi.
  rewrite <- (take_drop_middle _ _ _ E), fmap_app, fmap_cons.
  set (pre := Compression_instance <$> take i _).
  set (post := Compression_instance <$> drop (S i) _).
  replace i with (length pre); [apply value_at|].
  subst pre. rewrite length_fmap, length_take. lia.
Qed.

Lemma is_Compression_loaded h k i :
  (i < 5)%nat → is_Compression (loaded h ++ k) (length h + i) = true.
Proof.
  intros Hi. rewrite loaded_eq. apply is_Compression_extend.
  destruct (lookup_lt_is_Some_2
    ["GZIP"; "HADOOP_SNAPPY"; "Snappy"; "UNCOMPRESSED"; "ZIP"] i Hi) as [tag E].
  rewrite <- (take_drop_middle _ _ _ E), fmap_app, fmap_cons.
  set (pre := Compression_instance <$> take i _).
  set (post := Compression_instance <$> drop (S i) _).
  replace i with (length pre); [apply is_Compression_at|].
  subst pre. rewrite length_fmap, length_take.
  pose proof (lookup_lt_Some _ _ _ E). lia.
Qed.

(** The tags read through the five static members. *)
Lemma predefined_values h k :
  value (loaded h ++ k) <$> predefined (statics h)
  = Some <$> ["GZIP"; "HADOOP_SNAPPY"; "Snappy"; "UNCOMPRESSED"; "ZIP"].
Proof.
  rewrite predefined_eq. cbn -[value loaded].
  rewrite (value_loaded h k 0 "GZIP"), (value_loaded h k 1 "HADOOP_SNAPPY"),
    (value_loaded h k 2 "Snappy"), (value_loaded h k 3 "UNCOMPRESSED"),
    (value_loaded h k 4 "ZIP"); done.
Qed.

Lemma predefined_NoDup h : NoDup (predefined (statics h)).
Proof.
  rewrite predefined_eq. apply NoDup_fmap_2; [|apply NoDup_seq].
  intros i j ?. lia.
Qed.

End Store.

(** ** [Compression] *)

Section CompressionClass.

Implicit Types (h : list Obj) (c : nat) (tag : string) (ops : list Op).

Lemma loaded_frame h : take (length h) (loaded h) = h.
Proof. rewrite loaded_eq. by rewrite take_app_length. Qed.

Lemma run_loaded ops h : ∃ k, (run ops (loaded h)).2 = loaded h ++ k.
Proof. apply run_extends. Qed.

Lemma tags_NoDup :
  NoDup ["GZIP"; "HADOOP_SNAPPY"; "Snappy"; "UNCOMPRESSED"; "ZIP"].
Proof. by apply (bool_decide_unpack _). Qed.

Lemma predefined_seq h : predefined (statics h) = seq (length h) 5.
Proof.
  rewrite predefined_eq, <- (Nat.add_0_r (length h)) at 1.
  by rewrite <- fmap_add_seq.
Qed.

Lemma is_Compression_created h c :
  (length h ≤ c < length h + 5)%nat → is_Compression (loaded h) c = true.
Proof.
  intros Hc. replace c with (length h + (c - length h))%nat by lia.
  rewrite <- (app_nil_r (loaded h)). apply is_Compression_loaded. lia.
Qed.

Lemma filter_all {A} (P : A → Prop) `{!∀ x, Decision (P x)} (l : list A) :
  Forall P l → filter P l = l.
Proof.
  induction 1 as [|x l Hx _ IH]; [done|].
  by rewrite filter_cons_True, IH.
Qed.

Lemma predefined_index h c :
  c ∈ predefined (statics h) → ∃ i, c = (length h + i)%nat ∧ (i < 5)%nat.
Proof.
  rewrite predefined_eq. intros [i [-> Hi]]%list_elem_of_fmap.
  exists i. split; [done|]. apply elem_of_seq in Hi. lia.
Qed.

End CompressionClass.

Lemma predefined_values_run (h0 : list Obj) (ops : list Op) :
  value (run ops (loaded h0)).2 <$> predefined (statics h0)
  = Some <$> ["GZIP"; "HADOOP_SNAPPY"; "Snappy"; "UNCOMPRESSED"; "ZIP"].
Proof.
  destruct (run_extends ops (loaded h0)) as [k ->]. apply predefined_values.
Qed.

(** C1: each of the five static members of [Compression] exposes its tag
    through [value]: GZIP reads "GZIP", HADOOP_SNAPPY reads "HADOOP_SNAPPY",
    SNAPPY reads "Snappy", UNCOMPRESSED reads "UNCOMPRESSED" and ZIP reads
    "ZIP"; this holds once the class is initialised, in whatever store, and
    after any further use of the class. *)
Theorem Compression_singleton_tags (h0 : list Obj) (ops : list Op) :
  let st := statics h0 in
  let h := (run ops (loaded h0)).2 in
  value h (GZIP st) = Some "GZIP" ∧
  value h (HADOOP_SNAPPY st) = Some "HADOOP_SNAPPY" ∧
  value h (SNAPPY st) = Some "Snappy" ∧
  value h (UNCOMPRESSED st) = Some "UNCOMPRESSED" ∧
  value h (ZIP st) = Some "ZIP".
Proof.
  intros st h.
  pose proof (predefined_values_run h0 ops) as P.
  unfold predefined in P. fold st h in P. cbn in P.
  by inversion P.
Qed.

(** C9: the tag discriminates the five static members: two of them with
    the same [value] are the same member.  SNAPPY's tag is "Snappy", which
    upper-casing changes, while the other four tags are already upper
    case. *)
Theorem Compression_tag_injective (h0 : list Obj) (ops : list Op) :
  let st := statics h0 in
  let h := (run ops (loaded h0)).2 in
  (∀ a b : nat,
     a ∈ predefined st → b ∈ predefined st → value h a = value h b → a = b) ∧
  value h (SNAPPY st) = Some "Snappy" ∧
  toUpperCase "Snappy" ≠ "Snappy" ∧
  Forall (fun c => ∃ tag, value h c = Some tag ∧ toUpperCase tag = tag)
         [GZIP st; HADOOP_SNAPPY st; UNCOMPRESSED st; ZIP st].
Proof.
  intros st h.
  pose proof (predefined_values_run h0 ops) as P.
  unfold predefined in P. fold st h in P. cbn in P.
  inversion P as [[Hg Hh Hs Hu Hz]]. clear P.
  split; [|split; [done|split; [done|]]].
  - intros a b [i [-> Hi]]%predefined_index [j [-> Hj]]%predefined_index.
    subst h. destruct (run_loaded ops h0) as [k ->].
    destruct (lookup_lt_is_Some_2
      ["GZIP"; "HADOOP_SNAPPY"; "Snappy"; "UNCOMPRESSED"; "ZIP"] i Hi) as [ti Ei].
    destruct (lookup_lt_is_Some_2
      ["GZIP"; "HADOOP_SNAPPY"; "Snappy"; "UNCOMPRESSED"; "ZIP"] j Hj) as [tj Ej].
    rewrite (value_loaded h0 k i ti Ei), (value_loaded h0 k j tj Ej).
    intros [= <-]. f_equal. exact (NoDup_lookup _ _ _ _ tags_NoDup Ei Ej).
  - repeat (apply Forall_cons; split; [by eexists|]). apply Forall_nil_2.
Qed.

(** The third static member is reached by its position and by its name;
    both carry the tag "Snappy", so they are the same reference. *)
Lemma Compression_tag_injective_witness :
  2%nat ∈ predefined (statics []) ∧
  value (run [] (loaded [])).2 2 = Some "Snappy" ∧
  2%nat = SNAPPY (statics []).
Proof.
  assert (H : 2%nat ∈ predefined (statics [])).
  { rewrite predefined_seq. apply elem_of_seq. cbn. lia. }
  split; [exact H|]. split; [reflexivity|].
  apply (proj1 (Compression_tag_injective [] []) 2%nat (SNAPPY (statics [])) H).
  - exact H.
  - reflexivity.
Defined.

(** C3, as written, fails: the constructor is public, and
    [new Compression("LZ4")] is a [Compression] instance that is none of
    the five static members. *)
Lemma Compression_not_closed :
  let h := (run [OpNew "LZ4"] (loaded [])).2 in
  is_Compression h 5 = true ∧
  value h 5 = Some "LZ4" ∧
  (5%nat ∉ predefined (statics [])) ∧
  ¬ Compression_closed.
Proof.
  assert (N : 5%nat ∉ predefined (statics [])).
  { intros [i [E Hi]]%predefined_index. cbn in E. lia. }
  split; [reflexivity|]. split; [reflexivity|]. split; [exact N|].
  intros H. exact (N (H [OpNew "LZ4"] 5%nat eq_refl)).
Qed.

(** C3, amended: the class initialiser creates exactly five instances, the
    static members GZIP, HADOOP_SNAPPY, SNAPPY, UNCOMPRESSED and ZIP, which
    are pairwise distinct; the set of [Compression] values is open, for the
    constructor gives, for every tag, a further instance carrying that tag
    which is none of the five. *)
Theorem Compression_predefined_and_open (h0 : list Obj) (tag : string) :
  let st := statics h0 in
  let h1 := loaded h0 in
  let c := (Compression_new tag h1).1 in
  let h2 := (Compression_new tag h1).2 in
  length (predefined st) = 5%nat ∧
  NoDup (predefined st) ∧
  filter (fun r => is_Compression h1 r = true)
         (seq (length h0) (length h1 - length h0)) = predefined st ∧
  is_Compression h2 c = true ∧
  value h2 c = Some tag ∧
  c ∉ predefined st.
Proof.
  intros st h1 c h2. subst st h1 c h2.
  rewrite Compression_new_eq. cbn [fst snd].
  split; [done|]. split; [apply predefined_NoDup|].
  split; [|split; [apply (is_Compression_instance _ _ [])|
           split; [apply (value_instance _ _ [])|]]].
  - rewrite loaded_length, predefined_seq.
    replace (length h0 + 5 - length h0)%nat with 5%nat by lia.
    apply filter_all, Forall_seq. intros j Hj. by apply is_Compression_created.
  - intros [i [E Hi]]%predefined_index. rewrite loaded_length in E. lia.
Qed.

(** C4: for every string [tag], [new Compression(tag)] returns (the
    constructor is total, it has no failure case) a reference to a new
    object; the objects that were in the store are all still there and
    unchanged; the new object is a [Compression] whose [value] is [tag], and
    [value] still reads [tag] after any further use of the class. *)
Theorem Compression_new_spec (tag : string) (h : list Obj) (ops : list Op) :
  ∃ (c : nat) (h' : list Obj),
    Compression_new tag h = (c, h') ∧
    h !! c = None ∧
    length h' = S (length h) ∧
    take (length h) h' = h ∧
    is_Compression h' c = true ∧
    value h' c = Some tag ∧
    value (run ops h').2 c = Some tag.
Proof.
  exists (length h), (h ++ [Compression_instance tag]).
  split; [apply Compression_new_eq|].
  split; [by apply lookup_ge_None_2|].
  split; [rewrite length_app; cbn; lia|].
  split; [by rewrite take_app_length|].
  split; [apply is_Compression_instance|].
  split; [apply value_instance|].
  destruct (run_extends ops (h ++ [Compression_instance tag])) as [k ->].
  apply value_extend, value_instance.
Qed.

(** C5: every field the module declares is [readonly]: the instance field
    of [Compression] and every member, own or inherited, of
    [DestinationLoggingProps], [CommonS3Props], [S3BackupDestinationProps]
    and [CommonDestinationProps].  Hence typed code has no assignment to a
    value of these types, only constructions and reads, and neither class
    initialisation nor any sequence of operations changes or removes an
    object of the store, whatever the objects are. *)
Theorem module_entities_immutable (ops : list Op) (h : list Obj) :
  fst <$> module_types =
    [ "Compression"; "DestinationLoggingProps"; "CommonS3Props";
      "S3BackupDestinationProps"; "CommonDestinationProps" ] ∧
  Forall (fun T => Forall (fun m => m_readonly m = true) T.2) module_types ∧
  (∀ op : Op, (∃ tag, op = OpNew tag) ∨ (∃ c, op = OpValue c)) ∧
  take (length h) (loaded h) = h ∧
  take (length h) (run ops h).2 = h.
Proof.
  split; [done|].
  split; [apply module_fields_readonly|].
  split; [apply Op_cases|].
  split; [apply loaded_frame | apply run_frame].
Qed.

(** ** [BackupMode] *)

Section Enum.

Context {A : Type}.

(** Without initialisers, the members are numbered consecutively. *)
Lemma enum_number_auto (ms : list A) (next : Z) :
  enum_number next ((fun m => (m, None)) <$> ms)
  = zip ms (seqZ next (Z.of_nat (length ms))).
Proof.
  revert next. induction ms as [|m ms IH]; intros next; [done|].
  cbn [fmap list_fmap enum_number length default].
  rewrite Nat2Z.inj_succ, seqZ_cons by lia. cbn [zip zip_with].
  rewrite IH. do 3 f_equal; lia.
Qed.

End Enum.

Lemma BackupMode_members_eq :
  BackupMode_members = zip [ALL; FAILED; DISABLED] (seqZ 0 3).
Proof. exact (enum_number_auto [ALL; FAILED; DISABLED] 0). Qed.

(** C2: [BackupMode] has exactly the three members ALL, FAILED and DISABLED:
    the declaration lists these three and nothing else, every value of the
    type is one of them, they are pairwise distinct, and they can be told
    apart at run time, since each member's number maps back to that
    member. *)
Theorem BackupMode_three_values :
  fst <$> BackupMode_members = [ALL; FAILED; DISABLED] ∧
  (∀ m : BackupMode, m = ALL ∨ m = FAILED ∨ m = DISABLED) ∧
  ALL ≠ FAILED ∧ ALL ≠ DISABLED ∧ FAILED ≠ DISABLED ∧
  NoDup (snd <$> BackupMode_members) ∧
  (∀ m : BackupMode, BackupMode_value m ≫= BackupMode_of_value = Some m).
Proof.
  rewrite BackupMode_members_eq.
  split; [done|]. split; [intros []; auto|].
  do 3 (split; [done|]).
  split; [by apply (bool_decide_unpack _)|].
  unfold BackupMode_value, BackupMode_of_value.
  rewrite BackupMode_members_eq. by intros [].
Qed.

(** C10: the members carry the numbers of their declaration order, ALL = 0,
    FAILED = 1 and DISABLED = 2; the value 0 is ALL, and it is not
    DISABLED. *)
Theorem BackupMode_numbering :
  BackupMode_members = [(ALL, 0); (FAILED, 1); (DISABLED, 2)] ∧
  BackupMode_value ALL = Some 0 ∧
  BackupMode_value FAILED = Some 1 ∧
  BackupMode_value DISABLED = Some 2 ∧
  BackupMode_of_value 0 = Some ALL ∧
  BackupMode_value DISABLED ≠ Some 0.
Proof.
  unfold BackupMode_value, BackupMode_of_value.
  rewrite BackupMode_members_eq. by repeat split.
Qed.

(** ** The property interfaces *)

Section Interfaces.

Lemma members_unfold (i : Interface) :
  members i = (i_extends i ≫= members) ++ i_own i.
Proof.
  by destruct i.
Qed.

(** An interface has every member of each interface it extends, and its
    own members. *)
Lemma members_extends (i p : Interface) :
  p ∈ i_extends i → members p ⊆ members i.
Proof.
  intros Hp m Hm. rewrite members_unfold. apply elem_of_app. left.
  apply list_elem_of_bind. eauto.
Qed.

Lemma members_own (i : Interface) : i_own i ⊆ members i.
Proof. intros m Hm. rewrite members_unfold. apply elem_of_app. by right. Qed.

End Interfaces.

(** C6: [CommonS3Props] has exactly six members, all optional:
    [bufferingInterval] (a [Duration] of the core package), [bufferingSize]
    (a [Size] of the core package), [compression] (the [Compression] of this
    file), [encryptionKey] (an [IKey] of the KMS package), and the strings
    [errorOutputPrefix] and [prefix].  No member is required. *)
Theorem CommonS3Props_shape :
  member_names CommonS3Props =
    [ "bufferingInterval"; "bufferingSize"; "compression";
      "encryptionKey"; "errorOutputPrefix"; "prefix" ] ∧
  length (members CommonS3Props) = 6%nat ∧
  NoDup (member_names CommonS3Props) ∧
  m_type <$> members CommonS3Props =
    [ TQualified "cdk" "Duration"; TQualified "cdk" "Size"; TName "Compression";
      TQualified "kms" "IKey"; TString; TString ] ∧
  origin <$> (m_type <$> members CommonS3Props) =
    [ Some "@aws-cdk/core"; Some "@aws-cdk/core"; None;
      Some "@aws-cdk/aws-kms"; None; None ] ∧
  Forall (fun m => m_optional m = true) (members CommonS3Props) ∧
  required CommonS3Props = [].
Proof.
  split; [done|]. split; [done|].
  split; [by apply (bool_decide_unpack _)|].
  split; [done|]. split; [done|].
  split; [by repeat constructor | done].
Qed.

(** C7: [S3BackupDestinationProps] has the two members of
    [DestinationLoggingProps] (optional [logging], a boolean, and optional
    [logGroup], a log group), the members of [CommonS3Props], and exactly
    two more, both optional: [backupBucket], a bucket, and [backupMode], a
    [BackupMode]. *)
Theorem S3BackupDestinationProps_shape :
  members DestinationLoggingProps =
    [ ro_opt "logging" TBoolean;
      ro_opt "logGroup" (TQualified "logs" "ILogGroup") ] ∧
  members DestinationLoggingProps ⊆ members S3BackupDestinationProps ∧
  members CommonS3Props ⊆ members S3BackupDestinationProps ∧
  members S3BackupDestinationProps =
    members DestinationLoggingProps ++ members CommonS3Props ++
    [ ro_opt "backupBucket" (TQualified "s3" "IBucket");
      ro_opt "backupMode" (TName "BackupMode") ] ∧
  origin (TQualified "s3" "IBucket") = Some "@aws-cdk/aws-s3" ∧
  length (members S3BackupDestinationProps) = 10%nat ∧
  NoDup (member_names S3BackupDestinationProps) ∧
  Forall (fun m => m_optional m = true) (members S3BackupDestinationProps).
Proof.
  split; [done|].
  split; [apply members_extends; cbn; set_solver|].
  split; [apply members_extends; cbn; set_solver|].
  split; [done|]. split; [done|]. split; [done|].
  split; [by apply (bool_decide_unpack _)|].
  by repeat constructor.
Qed.

(** C8: [CommonDestinationProps] has the members of
    [DestinationLoggingProps] and exactly three more, all optional: [role],
    an IAM role; [processors], an array of data processors; and
    [backupConfiguration], an [S3BackupDestinationProps]. *)
Theorem CommonDestinationProps_shape :
  members DestinationLoggingProps ⊆ members CommonDestinationProps ∧
  members CommonDestinationProps =
    members DestinationLoggingProps ++
    [ ro_opt "role" (TQualified "iam" "IRole");
      ro_opt "processors" (TArray (TName "IDataProcessor"));
      ro_opt "backupConfiguration" (TName (i_name S3BackupDestinationProps)) ] ∧
  origin (TQualified "iam" "IRole") = Some "@aws-cdk/aws-iam" ∧
  origin (TName "IDataProcessor") = Some "./processor" ∧
  length (members CommonDestinationProps) = 5%nat ∧
  NoDup (member_names CommonDestinationProps) ∧
  Forall (fun m => m_optional m = true) (members CommonDestinationProps).
Proof.
  split; [apply members_extends; cbn; set_solver|].
  split; [done|]. split; [done|]. split; [done|]. split; [done|].
  split; [by apply (bool_decide_unpack _)|].
  by repeat constructor.
Qed.

(** * Further properties of the module *)

Section Runs.

Implicit Types (h : list Obj) (c : nat) (tag : string) (ops : list Op).

Lemma run_cons op ops h :
  run (op :: ops) h
  = ((exec op h).1 :: (run ops (exec op h).2).1, (run ops (exec op h).2).2).
Proof.
  cbn. unfold mbind, M_bind, bind. destruct (exec op h) as [v h1]. cbn.
  by destruct (run ops h1) as [vs h2].
Qed.

Lemma run_store_eq ops : ∀ h,
  (run ops h).2 = h ++ (Compression_instance <$> new_tags ops).
Proof.
  induction ops as [|op ops IH]; intros h.
  - cbn. by rewrite app_nil_r.
  - rewrite run_cons. cbn [snd]. rewrite IH.
    destruct (Op_cases op) as [[tag ->]|[c ->]].
    + change (new_tags (OpNew tag :: ops)) with (tag :: new_tags ops).
      rewrite fmap_cons. cbn [exec]. rewrite (cons_middle _ h), app_assoc.
      done.
    + done.
Qed.


Lemma new_tags_OpNew (tags : list string) : new_tags (OpNew <$> tags) = tags.
Proof.
  unfold new_tags. induction tags as [|t tags IH]; [done|].
  cbn. by rewrite IH.
Qed.

Lemma value_instances h (tags : list string) (i : nat) :
  value (h ++ (Compression_instance <$> tags)) (length h + i) = tags !! i.
Proof.
  destruct (tags !! i) as [tag|] eqn:E.
  - rewrite <- (take_drop_middle _ _ _ E), fmap_app, fmap_cons.
    pose proof (lookup_lt_Some _ _ _ E) as Hi.
    set (pre := Compression_instance <$> take i _).
    set (post := Compression_instance <$> drop (S i) _).
    replace i with (length pre); [apply value_at|].
    subst pre. rewrite length_fmap, length_take. lia.
  - apply lookup_ge_None in E. unfold value, get.
    rewrite lookup_ge_None_2; [done|].
    rewrite length_app, length_fmap. lia.
Qed.


End Runs.

(** X1: instances are told apart by reference, not by tag: two
    constructions with the same tag give two different objects, both of
    which read that tag. *)
Theorem Compression_same_tag_distinct (tag : string) (h : list Obj) :
  let r1 := Compression_new tag h in
  let r2 := Compression_new tag r1.2 in
  r1.1 ≠ r2.1 ∧
  is_Compression r2.2 r1.1 = true ∧ is_Compression r2.2 r2.1 = true ∧
  value r2.2 r1.1 = Some tag ∧ value r2.2 r2.1 = Some tag.
Proof.
  intros r1 r2. subst r1 r2. rewrite !Compression_new_eq. cbn [fst snd].
  split; [rewrite length_app; cbn; lia|].
  split; [rewrite <- app_assoc; apply is_Compression_instance|].
  split; [apply is_Compression_instance|].
  split; [rewrite <- app_assoc; apply value_instance | apply value_instance].
Qed.


(** X3: constructing a list of tags and reading back: the references
    returned are the next free positions of the store, in order, and the
    [i]-th of them reads the [i]-th tag; a position past the last one
    constructed reads nothing. *)
Theorem Compression_batch_round_trip (tags : list string) (h : list Obj) :
  (run (OpNew <$> tags) h).1 = VRef <$> seq (length h) (length tags) ∧
  ∀ i : nat, value (run (OpNew <$> tags) h).2 (length h + i) = tags !! i.
Proof.
  split.
  - revert h. induction tags as [|t tags IH]; intros h; [done|].
    rewrite fmap_cons, run_cons.
    change (exec (OpNew t) h) with (VRef (length h), h ++ [Compression_instance t]).
    cbn [fst snd]. rewrite IH, length_app. cbn [length seq fmap list_fmap].
    by rewrite Nat.add_1_r.
  - intros i. rewrite run_store_eq, new_tags_OpNew. apply value_instances.
Qed.




(** X6: configuration nests exactly one level.  [CommonDestinationProps]
    has one member typed by an interface of this file,
    [backupConfiguration], an [S3BackupDestinationProps], and no member of
    [S3BackupDestinationProps] is typed by an interface of this file.  The
    two levels share exactly the logging members: the settings of
    [CommonS3Props] and the backup bucket and mode are reachable only
    through [backupConfiguration]. *)
Theorem configuration_nesting :
  filter (fun m => is_Some (interface_of (m_type m)))
         (members CommonDestinationProps)
  = [ ro_opt "backupConfiguration" (TName (i_name S3BackupDestinationProps)) ] ∧
  Forall (fun m => interface_of (m_type m) = None)
         (members S3BackupDestinationProps) ∧
  filter (fun n => n ∈ member_names S3BackupDestinationProps)
         (member_names CommonDestinationProps)
  = member_names DestinationLoggingProps ∧
  Forall (fun n => n ∉ member_names CommonDestinationProps)
         (member_names CommonS3Props ++ ["backupBucket"; "backupMode"]).
Proof.
  split; [by vm_compute|].
  split; [by repeat constructor|].
  split; [by vm_compute|].
  by apply (bool_decide_unpack _).
Qed.

(** X7: every type a member refers to resolves, to a declaration of the
    file, to a named import or through a namespace import; and every
    import of the file is used by the type of some member. *)
Theorem type_references_resolve :
  Forall (fun T => Forall (fun m => resolved (m_type m) = true) T.2)
         module_types ∧
  Forall (fun imp =>
            Exists (fun T =>
                      Exists (fun m => import_of (m_type m) = Some imp.1) T.2)
                   module_types)
         (namespace_imports ++ named_imports).
Proof.
  split; [by repeat constructor|].
  by apply (bool_decide_unpack _).
Qed.
